(** * TextAttack: the DeepWordBug attack recipe (Gao, Lanchantin, Soffa, Qi 2018)

    A shallow embedding of [textattack/attack_recipes/gao_2018_deepwordbug.py]
    together with the collaborators the recipe wires up (the character
    operators, the edit-distance constraint and the greedy
    word-importance-ranked search), and the properties of the recipe. *)

From Stdlib Require Import String Ascii Bool Arith ZArith QArith Lia List
  Permutation.
Import ListNotations.

Local Open Scope nat_scope.
Local Open Scope list_scope.

(** ** Data model *)

Definition Word := string.

(** Modelled from the spec: the text class is not part of the sources at
    hand; a text is its ordered sequence of word tokens. *)
Definition Text := list Word.

(** Modelled from the spec: what the oracle answers for one text, the
    predicted label and the confidence of every label. *)
Record Prediction := mkPrediction {
  label : nat;
  confidence : list Q
}.

(** The target model is only ever used as a black box from texts to
    predictions. *)
Definition Model := Text -> Prediction.

(** The four character-level operators of the paper. *)
Inductive Operator :=
| NeighboringCharacterSwap
| RandomCharacterSubstitution
| RandomCharacterDeletion
| RandomCharacterInsertion.

(** A transformation object: one word-swap operator, or the composite of a
    list of transformation objects. *)
#[warnings="-register-all"]
Inductive Transformation :=
| WordSwap (op : Operator)
| Composite (transformations : list Transformation).

(** A constraint object; the recipe only ever builds the edit-distance one. *)
Inductive Constraint :=
| EditDistance (max_edit_distance : Z).

(** The attack object: the keyword arguments [GreedyWordSwapWIR] was built
    with. *)
Record Attack := mkAttack {
  attack_model : Model;
  attack_transformation : Transformation;
  attack_constraints : list Constraint;
  attack_max_depth : option nat
}.

(** ** Ambient state

    The random character operators draw from the process-wide random
    generator, and the oracle is an external resource whose use is observed:
    both live in the world that computations thread. *)

(** The random generator: an infinite tape of draws and a read position. *)
Record RandomState := mkRandomState {
  tape : nat -> nat;
  cursor : nat
}.

Record World := mkWorld {
  oracle_log : list Text;       (* the texts sent to the oracle, oldest first *)
  random_state : RandomState
}.

Inductive Error :=
| ConfigurationError.

(** Computations that may raise at construction time. *)
Definition Construct (A : Type) : Type := World -> Error + (A * World).

Definition cret {A} (a : A) : Construct A := fun w => inr (a, w).

Definition cbind {A B} (c : Construct A) (f : A -> Construct B) : Construct B :=
  fun w => match c w with
           | inl e => inl e
           | inr (a, w') => f a w'
           end.

Definition raise {A} (e : Error) : Construct A := fun _ => inl e.

Declare Scope construct_scope.
Delimit Scope construct_scope with construct.
Notation "x <- c ;; k" := (cbind c (fun x => k))
  (at level 61, c at next level, right associativity) : construct_scope.

(** ** The constructors the recipe calls *)

(** Modelled from the spec: the constructors of the four operator classes of
    [textattack.transformations] are not part of the sources at hand; they
    take no argument and the spec gives them no way to fail. *)
Definition WordSwapNeighboringCharacterSwap : Construct Transformation :=
  cret (WordSwap NeighboringCharacterSwap).

(** Modelled from the spec: the constructor of the substitution operator,
    as above. *)
Definition WordSwapRandomCharacterSubstitution : Construct Transformation :=
  cret (WordSwap RandomCharacterSubstitution).

(** Modelled from the spec: the constructor of the deletion operator, as
    above. *)
Definition WordSwapRandomCharacterDeletion : Construct Transformation :=
  cret (WordSwap RandomCharacterDeletion).

(** Modelled from the spec: the constructor of the insertion operator, as
    above. *)
Definition WordSwapRandomCharacterInsertion : Construct Transformation :=
  cret (WordSwap RandomCharacterInsertion).

(** Modelled from the spec: the constructor of [CompositeTransformation] is
    not part of the sources at hand; it keeps the list it is given. *)
Definition CompositeTransformation (ts : list Transformation)
  : Construct Transformation :=
  cret (Composite ts).

(** Modelled from the spec: the constructor of [LevenshteinEditDistance] is
    not part of the sources at hand; a negative budget is a configuration
    error raised at construction time (spec, error handling, item d). *)
Definition LevenshteinEditDistance (max_edit_distance : Z)
  : Construct Constraint :=
  if (max_edit_distance <? 0)%Z then raise ConfigurationError
  else cret (EditDistance max_edit_distance).

(** The operators a transformation object is made of, left to right. *)
Fixpoint operators (t : Transformation) : list Operator :=
  match t with
  | WordSwap op => [op]
  | Composite ts => flat_map operators ts
  end.

(** Modelled from the spec: the constructor of [GreedyWordSwapWIR] is not part
    of the sources at hand; it stores its arguments, and an empty operator set
    is a configuration error raised at construction time, before any oracle
    call (spec, error handling, item d). *)
Definition GreedyWordSwapWIR (model : Model) (transformation : Transformation)
    (constraints : list Constraint) (max_depth : option nat)
  : Construct Attack :=
  match operators transformation with
  | [] => raise ConfigurationError
  | _ :: _ => cret (mkAttack model transformation constraints max_depth)
  end.

(** ** The recipe *)

(** The local variables of [Gao2018DeepWordBug] when it reaches its
    [return] statement. *)
Record Locals := mkLocals {
  transformation : Transformation;
  constraints : list Constraint;
  attack : Attack
}.

Local Open Scope construct_scope.

(** The body of [Gao2018DeepWordBug] up to [return attack]. *)
Definition Gao2018DeepWordBug_body (model : Model)
    (use_all_transformations : bool) : Construct Locals :=
  transformation <-
    (if use_all_transformations then
       t1 <- WordSwapNeighboringCharacterSwap ;;
       t2 <- WordSwapRandomCharacterSubstitution ;;
       t3 <- WordSwapRandomCharacterDeletion ;;
       t4 <- WordSwapRandomCharacterInsertion ;;
       CompositeTransformation [t1; t2; t3; t4]
     else
       WordSwapRandomCharacterSubstitution) ;;
  c <- LevenshteinEditDistance 30 ;;
  let constraints := [c] in
  attack <- GreedyWordSwapWIR model transformation [] None ;;
  cret (mkLocals transformation constraints attack).

(** [def Gao2018DeepWordBug(model, use_all_transformations=True)]. *)
Definition Gao2018DeepWordBug (model : Model) (use_all_transformations : bool)
  : Construct Attack :=
  locals <- Gao2018DeepWordBug_body model use_all_transformations ;;
  cret (attack locals).

(** A call site: the second argument may be left out, and then takes its
    default value [True]. *)
Definition use_all_transformations_default : bool := true.

Definition Gao2018DeepWordBug_call (model : Model)
    (use_all_transformations : option bool) : Construct Attack :=
  Gao2018DeepWordBug model
    (match use_all_transformations with
     | Some b => b
     | None => use_all_transformations_default
     end).

Local Close Scope construct_scope.

(** The transformation the recipe configures for each value of the flag. *)
Definition all_four : Transformation :=
  Composite [WordSwap NeighboringCharacterSwap;
             WordSwap RandomCharacterSubstitution;
             WordSwap RandomCharacterDeletion;
             WordSwap RandomCharacterInsertion].

Definition substitution_only : Transformation :=
  WordSwap RandomCharacterSubstitution.

(** ** Texts as strings, and edit distance *)

(** Modelled from the spec: the reconstruction of the full string of a text
    is not part of the sources at hand; the words separated by one space. *)
Definition text_string (t : Text) : string := String.concat " "%string t.

Definition text_chars (t : Text) : list ascii :=
  list_ascii_of_string (text_string t).

Definition min3 (a b c : nat) : nat := Nat.min a (Nat.min b c).

Definition substitution_cost (a b : ascii) : nat :=
  if Ascii.eqb a b then 0 else 1.

(** Modelled from the spec: Levenshtein distance, by its textbook
    recurrence: the cheapest of deleting the head of [s], inserting the head
    of [t], or matching the two heads (for free when they are equal). *)
Fixpoint levenshtein (s t : list ascii) {struct s} : nat :=
  match s with
  | [] => length t
  | a :: s' =>
      (fix against (t : list ascii) : nat :=
         match t with
         | [] => length s
         | b :: t' =>
             min3 (S (levenshtein s' t))
                  (S (against t'))
                  (levenshtein s' t' + substitution_cost a b)
         end) t
  end.

(** The distances from the empty string to every suffix of [t], longest
    suffix first. *)
Fixpoint base_row (t : list ascii) : list nat :=
  match t with
  | [] => [0]
  | _ :: t' => length t :: base_row t'
  end.

(** One step of the dynamic program: from the row of [s'] (its distance to
    every suffix of [t]) to the row of [a :: s']. *)
Fixpoint next_row (a : ascii) (t : list ascii) (prev : list nat) : list nat :=
  match t, prev with
  | b :: t', p :: prev' =>
      let cur' := next_row a t' prev' in
      min3 (S p) (S (hd 0 cur')) (hd 0 prev' + substitution_cost a b) :: cur'
  | [], p :: _ => [S p]
  | _, [] => []
  end.

Fixpoint distance_row (s t : list ascii) : list nat :=
  match s with
  | [] => base_row t
  | a :: s' => next_row a t (distance_row s' t)
  end.

(** Modelled from the spec: the distance function of
    [textattack.constraints.overlap.LevenshteinEditDistance] is not part of
    the sources at hand; the spec describes the textbook dynamic program over
    the characters of the two strings, quadratic in time and keeping one row. *)
Definition edit_distance (s t : list ascii) : nat :=
  hd 0 (distance_row s t).

(** Modelled from the spec: the check of a constraint object (spec, the
    constraint filter): the candidate is accepted iff the edit distance between
    the full string of the original text and that of the candidate is at most
    the budget. *)
Definition permits (c : Constraint) (original candidate : Text) : bool :=
  match c with
  | EditDistance budget =>
      (Z.of_nat (edit_distance (text_chars original) (text_chars candidate))
       <=? budget)%Z
  end.

(** Modelled from the spec: a candidate survives the filter when every
    constraint of the attack permits it. *)
Definition permits_all (cs : list Constraint) (original candidate : Text)
  : bool :=
  forallb (fun c => permits c original candidate) cs.

(** ** Computations of one attack run *)

Definition Run (A : Type) : Type := World -> A * World.

Definition ret {A} (a : A) : Run A := fun w => (a, w).

Definition bind {A B} (c : Run A) (f : A -> Run B) : Run B :=
  fun w => let (a, w') := c w in f a w'.

Declare Scope run_scope.
Delimit Scope run_scope with run.
Notation "x <- c ;; k" := (bind c (fun x => k))
  (at level 61, c at next level, right associativity) : run_scope.

(** Modelled from the spec: one oracle call, [predict(text)]; the answer of
    the model, and the call recorded. *)
Definition query (model : Model) (t : Text) : Run Prediction :=
  fun w => (model t, mkWorld (oracle_log w ++ [t]) (random_state w)).

(** A computation that only uses the random generator. *)
Definition randomly {A} (f : RandomState -> A * RandomState) : Run A :=
  fun w => let (a, rs) := f (random_state w) in
           (a, mkWorld (oracle_log w) rs).

(** A run is started after construction succeeded. *)
Definition lift {A} (c : Run A) : Construct A := fun w => inr (c w).

(** ** The transformation engine *)

(** The word-level behaviour of the four operators: the replacement words an
    operator proposes for a word, drawing from the random generator. The
    operators are external primitives; everything below is parametric in
    them. *)
Class Operators :=
  replacement_words : Operator -> Word -> RandomState -> list Word * RandomState.

(** Modelled from the spec: the perturbation record, one per committed
    change. *)
Record Perturbation := mkPerturbation {
  position : nat;
  original_word : Word;
  replacement_word : Word;
  operator : Operator
}.

(** Modelled from the spec: a candidate, a speculative variant of the text
    and the change that produced it. *)
Record Candidate := mkCandidate {
  candidate_text : Text;
  candidate_record : Perturbation
}.

(** Modelled from the spec: the composition rule of the engine. A composite
    unions the outputs of its members for the same word, each replacement
    tagged with the operator that produced it. *)
Fixpoint transformation_words `{Operators} (t : Transformation) (w : Word)
    (rs : RandomState) : list (Word * Operator) * RandomState :=
  match t with
  | WordSwap op =>
      let (ws, rs') := replacement_words op w rs in
      (map (fun w' => (w', op)) ws, rs')
  | Composite ts =>
      (fix union (ts : list Transformation) (rs : RandomState) :=
         match ts with
         | [] => ([], rs)
         | t :: ts' =>
             let (c1, rs1) := transformation_words t w rs in
             let (c2, rs2) := union ts' rs1 in
             (c1 ++ c2, rs2)
         end) ts rs
  end.

Fixpoint replace_word_at_index (t : Text) (i : nat) (w : Word) : Text :=
  match t, i with
  | [], _ => []
  | _ :: t', 0 => w :: t'
  | x :: t', S i' => x :: replace_word_at_index t' i' w
  end.

Definition candidate_string (c : Candidate) : string :=
  text_string (candidate_text c).

(** Modelled from the spec: deduplication by full string; keeps the first
    candidate of every full string not in [seen]. *)
Fixpoint dedupe (seen : list string) (cs : list Candidate) : list Candidate :=
  match cs with
  | [] => []
  | c :: cs' =>
      let s := candidate_string c in
      if existsb (String.eqb s) seen then dedupe seen cs'
      else c :: dedupe (s :: seen) cs'
  end.

Definition candidate_at (text : Text) (i : nat) (w : Word)
    (tagged : Word * Operator) : Candidate :=
  mkCandidate (replace_word_at_index text i (fst tagged))
              (mkPerturbation i w (fst tagged) (snd tagged)).

Local Open Scope run_scope.

(** Modelled from the spec: the engine's [generate(text, position)] is not
    part of the sources at hand. The candidates are the text with the word at
    the position replaced, no two of them with the same full string, and none
    with the full string of the input (the no-op). *)
Definition generate `{Operators} (tr : Transformation) (text : Text) (i : nat)
  : Run (list Candidate) :=
  match nth_error text i with
  | None => ret []
  | Some w =>
      tagged <- randomly (transformation_words tr w) ;;
      ret (dedupe [text_string text] (map (candidate_at text i w) tagged))
  end.

(** ** The importance ranker *)

Definition conf (p : Prediction) (l : nat) : Q := nth l (confidence p) 0%Q.

Definition UNKNOWN : Word := "[UNKNOWN]"%string.

(** Modelled from the spec: the importance scores. One probe per word: the
    drop of the confidence in the original label when the word is replaced by
    the unknown-token placeholder. *)
Fixpoint importance_scores (model : Model) (text : Text) (l0 : nat) (c0 : Q)
    (positions : list nat) : Run (list (nat * Q)) :=
  match positions with
  | [] => ret []
  | i :: rest =>
      p <- query model (replace_word_at_index text i UNKNOWN) ;;
      scores <- importance_scores model text l0 c0 rest ;;
      ret ((i, (c0 - conf p l0)%Q) :: scores)
  end.

(** Modelled from the spec: the ordering of the ranking. Insertion keeping
    scores descending; among equal scores the inserted position, which is the
    leftmost so far, comes first. *)
Fixpoint insert_ranked (x : nat * Q) (l : list (nat * Q)) : list (nat * Q) :=
  match l with
  | [] => [x]
  | y :: l' =>
      if Qle_bool (snd y) (snd x) then x :: l
      else y :: insert_ranked x l'
  end.

Definition sort_ranked (l : list (nat * Q)) : list (nat * Q) :=
  fold_right insert_ranked [] l.

(** Modelled from the spec: [rank(text, oracle)] is not part of the sources at
    hand. Positions by descending importance, ties by ascending index, one
    oracle query per word, computed once per run. *)
Definition rank (model : Model) (text : Text) (p0 : Prediction)
  : Run (list nat) :=
  scores <- importance_scores model text (label p0) (conf p0 (label p0))
              (seq 0 (length text)) ;;
  ret (map fst (sort_ranked scores)).

(** ** The greedy searcher *)

(** Modelled from the spec: the terminal state of a run, with the final or
    best text and the perturbation trail. *)
Inductive AttackResult :=
| Success (final : Text) (trail : list Perturbation)
| Failure (best : Text) (trail : list Perturbation).

Record SearchState := mkSearchState {
  current : Text;
  current_confidence : Q;
  committed : list Perturbation
}.

(** Modelled from the spec: every surviving candidate is scored by one
    oracle query. *)
Fixpoint score_all (model : Model) (cs : list Candidate)
  : Run (list (Candidate * Prediction)) :=
  match cs with
  | [] => ret []
  | c :: cs' =>
      p <- query model (candidate_text c) ;;
      scored <- score_all model cs' ;;
      ret ((c, p) :: scored)
  end.

(** Modelled from the spec: the best candidate is the one with the lowest
    confidence in the original label, the earliest one among equals. *)
Fixpoint most_degrading (l0 : nat) (scored : list (Candidate * Prediction))
  : option (Candidate * Prediction) :=
  match scored with
  | [] => None
  | x :: rest =>
      match most_degrading l0 rest with
      | None => Some x
      | Some y =>
          if Qle_bool (conf (snd x) l0) (conf (snd y) l0) then Some x
          else Some y
      end
  end.

Definition flips (l0 : nat) (x : Candidate * Prediction) : bool :=
  negb (label (snd x) =? l0).

Definition improves (l0 : nat) (st : SearchState) (x : Candidate * Prediction)
  : bool :=
  negb (Qle_bool (current_confidence st) (conf (snd x) l0)).

Definition commit (l0 : nat) (st : SearchState) (x : Candidate * Prediction)
  : SearchState :=
  mkSearchState (candidate_text (fst x)) (conf (snd x) l0)
                (committed st ++ [candidate_record (fst x)]).

(** Modelled from the spec: the searcher's state machine is not part of the
    sources at hand. [searching] is the state [Searching(i)] over the ranked
    positions still to visit: candidates are generated for the current text,
    filtered against the original text, scored by the oracle; a flipping
    candidate ends the run as a success, otherwise the most degrading
    candidate is committed if it improves on the current text; with no
    position left the run is exhausted. *)
Fixpoint searching `{Operators} (model : Model) (tr : Transformation)
    (cs : list Constraint) (original : Text) (l0 : nat) (order : list nat)
    (st : SearchState) : Run AttackResult :=
  match order with
  | [] => ret (Failure (current st) (committed st))
  | i :: rest =>
      candidates <- generate tr (current st) i ;;
      scored <- score_all model
                  (filter (fun c => permits_all cs original (candidate_text c))
                          candidates) ;;
      match most_degrading l0 (filter (flips l0) scored) with
      | Some x =>
          ret (Success (candidate_text (fst x))
                       (committed st ++ [candidate_record (fst x)]))
      | None =>
          match most_degrading l0 scored with
          | Some x =>
              if improves l0 st x
              then searching model tr cs original l0 rest (commit l0 st x)
              else searching model tr cs original l0 rest st
          | None => searching model tr cs original l0 rest st
          end
      end
  end.

(** Modelled from the spec: one attack run of an attack object on a text. The
    original prediction is asked once, the ranking is computed once, then the
    search visits the ranked positions. The spec's searcher has no depth
    bound, which is what [max_depth = None] asks for. *)
Definition attack_one `{Operators} (a : Attack) (text : Text)
  : Run AttackResult :=
  p0 <- query (attack_model a) text ;;
  order <- rank (attack_model a) text p0 ;;
  searching (attack_model a) (attack_transformation a) (attack_constraints a)
            text (label p0) order
            (mkSearchState text (conf p0 (label p0)) []).

Local Close Scope run_scope.

(** Building the recipe's attack and running it once on a text. *)
Definition run_recipe `{Operators} (model : Model)
    (use_all_transformations : bool) (text : Text) : Construct AttackResult :=
  cbind (Gao2018DeepWordBug model use_all_transformations)
        (fun a => lift (attack_one a text)).

(** The candidates the recipe's attack generates for one word of a text. *)
Definition recipe_candidates `{Operators} (model : Model)
    (use_all_transformations : bool) (text : Text) (i : nat)
  : Construct (list Candidate) :=
  cbind (Gao2018DeepWordBug model use_all_transformations)
        (fun a => lift (generate (attack_transformation a) text i)).

Definition result_text (r : AttackResult) : Text :=
  match r with
  | Success t _ => t
  | Failure t _ => t
  end.

Definition result_trail (r : AttackResult) : list Perturbation :=
  match r with
  | Success _ tr => tr
  | Failure _ tr => tr
  end.

Definition is_success (r : AttackResult) : bool :=
  match r with
  | Success _ _ => true
  | Failure _ _ => false
  end.

(** ** A concrete reading of the four operators *)

Definition letters : list ascii :=
  list_ascii_of_string "abcdefghijklmnopqrstuvwxyz".

(** A draw below [bound] from the generator. *)
Definition draw (bound : nat) (rs : RandomState) : nat * RandomState :=
  (tape rs (cursor rs) mod bound, mkRandomState (tape rs) (S (cursor rs))).

Definition random_letter (rs : RandomState) : ascii * RandomState :=
  let (k, rs') := draw 26 rs in (nth k letters "a"%char, rs').

(** (1) Swap: swap two adjacent letters in the word. *)
Fixpoint neighbor_swaps (cs : list ascii) : list (list ascii) :=
  match cs with
  | a :: ((b :: rest) as tl) =>
      (b :: a :: rest) :: map (cons a) (neighbor_swaps tl)
  | _ => []
  end.

(** (2) Substitution: substitute a letter in the word with a random letter. *)
Definition random_substitution (cs : list ascii) (rs : RandomState)
  : list (list ascii) * RandomState :=
  match cs with
  | [] => ([], rs)
  | _ :: _ =>
      let (i, rs1) := draw (length cs) rs in
      let (c, rs2) := random_letter rs1 in
      ([firstn i cs ++ c :: skipn (S i) cs], rs2)
  end.

(** (3) Deletion: delete a random letter from the word. *)
Definition random_deletion (cs : list ascii) (rs : RandomState)
  : list (list ascii) * RandomState :=
  match cs with
  | _ :: _ :: _ =>
      let (i, rs1) := draw (length cs) rs in
      ([firstn i cs ++ skipn (S i) cs], rs1)
  | _ => ([], rs)
  end.

(** (4) Insertion: insert a random letter in the word. *)
Definition random_insertion (cs : list ascii) (rs : RandomState)
  : list (list ascii) * RandomState :=
  let (i, rs1) := draw (S (length cs)) rs in
  let (c, rs2) := random_letter rs1 in
  ([firstn i cs ++ c :: skipn i cs], rs2).

(** Modelled from the spec: the operator classes of
    [textattack.transformations] are not part of the sources at hand. This
    instance follows the recipe's comments on the four methods; an operator
    contributes nothing for a word too short for it. It is used for the
    concrete runs only. *)
#[export] Instance character_operators : Operators :=
  fun op w rs =>
    let cs := list_ascii_of_string w in
    let (outs, rs') :=
      match op with
      | NeighboringCharacterSwap => (neighbor_swaps cs, rs)
      | RandomCharacterSubstitution => random_substitution cs rs
      | RandomCharacterDeletion => random_deletion cs rs
      | RandomCharacterInsertion => random_insertion cs rs
      end in
    (map string_of_list_ascii outs, rs').

(** ** Concrete inputs *)

Definition count_swapped (t : Text) : nat :=
  length (filter (String.eqb "ba"%string) t).

(** A stub oracle with two labels: every word "ba" in the text moves one
    hundredth of confidence from label 0 to label 1, and the decision is
    label 1 once the text holds [threshold] of them. *)
Definition stub_model (threshold : nat) : Model :=
  fun t =>
    let n := count_swapped t in
    mkPrediction (if threshold <=? n then 1 else 0)
                 [(Z.of_nat (100 - n) # 100)%Q; (Z.of_nat n # 100)%Q].

(** A generator whose every draw is 25: the letter z, at the position 25
    modulo the number of positions. *)
Definition always_z : RandomState := mkRandomState (fun _ => 25) 0.

Definition fresh_world : World := mkWorld [] always_z.

(** Sixteen times the word "ab". *)
Definition long_text : Text := repeat "ab"%string 16.

Definition short_text : Text := ["a"%string; "b"%string].

(** The scenario of the spec's examples: the text "The movie was bad", an
    oracle that answers negative (label 0) with confidence 0.9, is less sure
    once the last word is masked, and answers positive (label 1) with
    confidence 0.6 once the last word reads "bar". *)
Definition movie_text : Text :=
  ["The"%string; "movie"%string; "was"%string; "bad"%string].

Definition movie_model : Model :=
  fun t =>
    match nth_error t 3 with
    | Some w =>
        if String.eqb w "bar"%string then mkPrediction 1 [(4 # 10)%Q; (6 # 10)%Q]
        else if String.eqb w UNKNOWN then mkPrediction 0 [(5 # 10)%Q; (5 # 10)%Q]
        else mkPrediction 0 [(9 # 10)%Q; (1 # 10)%Q]
    | None => mkPrediction 0 [(9 # 10)%Q; (1 # 10)%Q]
    end.

(** A generator whose first draw is 2 (the third letter of a word of three)
    and whose later draws are 17 (the letter r). *)
Definition movie_world : World :=
  mkWorld [] (mkRandomState (fun n => if n =? 0 then 2 else 17) 0).

(** The bound on oracle queries as the termination guarantee words it: at
    most the number of words times the maximum number of candidates per
    word. *)
Definition terminates_within_words_times_candidates `{Operators}
    (model : Model) (use_all_transformations : bool) (text : Text) (m : nat)
    (w : World) : Prop :=
  (forall wd rs, In wd text ->
     length (fst (transformation_words
                    (if use_all_transformations then all_four
                     else substitution_only) wd rs)) <= m) ->
  exists r w',
    run_recipe model use_all_transformations text w = inr (r, w')
    /\ length (oracle_log w') <= length (oracle_log w) + length text * m.

(** ** Auxiliary definitions for the proofs *)

(** The suffixes of a string, longest first: the columns of the dynamic
    program. *)
Fixpoint suffixes (t : list ascii) : list (list ascii) :=
  match t with
  | [] => [[]]
  | _ :: t' => t :: suffixes t'
  end.

(** * Properties *)

(** ** The recipe *)

Lemma Gao2018DeepWordBug_body_eq model b w :
  Gao2018DeepWordBug_body model b w =
  inr (mkLocals (if b then all_four else substitution_only)
                [EditDistance 30]
                (mkAttack model (if b then all_four else substitution_only)
                          [] None),
       w).
Proof. destruct b; reflexivity. Qed.

Lemma Gao2018DeepWordBug_eq model b w :
  Gao2018DeepWordBug model b w =
  inr (mkAttack model (if b then all_four else substitution_only) [] None, w).
Proof.
  unfold Gao2018DeepWordBug, cbind.
  rewrite Gao2018DeepWordBug_body_eq. reflexivity.
Qed.

(** C2: the recipe builds [LevenshteinEditDistance(30)] and binds it to the
    local variable [constraints] only; the attack it constructs and returns
    was given the empty constraint list, so it carries no distance
    constraint. *)
Theorem C2_constraint_built_but_not_attached :
  forall (model : Model) (use_all_transformations : bool) (w : World),
  exists locals : Locals,
    Gao2018DeepWordBug_body model use_all_transformations w = inr (locals, w)
    /\ constraints locals = [EditDistance 30]
    /\ Gao2018DeepWordBug model use_all_transformations w
       = inr (attack locals, w)
    /\ attack_constraints (attack locals) = []
    /\ ~ In (EditDistance 30) (attack_constraints (attack locals)).
Proof.
  intros model b w. eexists. split.
  - apply Gao2018DeepWordBug_body_eq.
  - cbn. repeat split.
    + apply Gao2018DeepWordBug_eq.
    + intros [].
Qed.

(** C3: with [use_all_transformations=True] the attack's transformation is
    the composite of exactly the four character operators, with [False] it is
    the substitution operator alone, whatever the model (the only other
    argument) and the state of the world. *)
Theorem C3_flag_selects_transformation :
  forall (model : Model) (w : World),
    (exists a, Gao2018DeepWordBug model true w = inr (a, w)
               /\ attack_transformation a
                  = Composite [WordSwap NeighboringCharacterSwap;
                               WordSwap RandomCharacterSubstitution;
                               WordSwap RandomCharacterDeletion;
                               WordSwap RandomCharacterInsertion]
               /\ operators (attack_transformation a)
                  = [NeighboringCharacterSwap; RandomCharacterSubstitution;
                     RandomCharacterDeletion; RandomCharacterInsertion])
    /\
    (exists a, Gao2018DeepWordBug model false w = inr (a, w)
               /\ attack_transformation a = WordSwap RandomCharacterSubstitution
               /\ operators (attack_transformation a)
                  = [RandomCharacterSubstitution]).
Proof.
  intros model w. split; eexists; (split; [apply Gao2018DeepWordBug_eq|]);
    split; reflexivity.
Qed.

(** C8: for every model and either value of the flag the attack is built with
    [max_depth=None]. *)
Theorem C8_no_depth_limit :
  forall (model : Model) (use_all_transformations : bool) (w : World),
  exists a,
    Gao2018DeepWordBug model use_all_transformations w = inr (a, w)
    /\ attack_max_depth a = None.
Proof.
  intros model b w. eexists. split; [apply Gao2018DeepWordBug_eq|reflexivity].
Qed.

(** C9: called with a model only, the recipe uses the default
    [use_all_transformations=True], so the attack's transformation is the
    four-operator composite and not the substitution-only variant. *)
Theorem C9_default_is_all_transformations :
  forall (model : Model) (w : World),
  exists a,
    Gao2018DeepWordBug_call model None w = inr (a, w)
    /\ Gao2018DeepWordBug_call model None w
       = Gao2018DeepWordBug_call model (Some true) w
    /\ attack_transformation a = all_four
    /\ attack_transformation a <> substitution_only.
Proof.
  intros model w. eexists. split; [apply Gao2018DeepWordBug_eq|].
  split; [reflexivity|]. split; [reflexivity|]. cbn. discriminate.
Qed.

(** C10: for every model and either value of the flag the recipe returns
    normally: no configuration error is raised, the world is left as it was
    (no oracle query is logged, no random draw consumed), and the attack
    returned holds exactly the model it was given. *)
Theorem C10_returns_attack_on_model :
  forall (model : Model) (use_all_transformations : bool) (w : World),
  exists a,
    Gao2018DeepWordBug model use_all_transformations w = inr (a, w)
    /\ attack_model a = model.
Proof.
  intros model b w. eexists. split; [apply Gao2018DeepWordBug_eq|reflexivity].
Qed.

(** ** Edit distance: the dynamic program computes the recurrence *)

Lemma levenshtein_nil_r s : levenshtein s [] = length s.
Proof. destruct s; reflexivity. Qed.

Lemma levenshtein_cons a s b t :
  levenshtein (a :: s) (b :: t) =
  min3 (S (levenshtein s (b :: t)))
       (S (levenshtein (a :: s) t))
       (levenshtein s t + substitution_cost a b).
Proof. reflexivity. Qed.

Lemma hd_map_suffixes (f : list ascii -> nat) t :
  hd 0 (map f (suffixes t)) = f t.
Proof. destruct t; reflexivity. Qed.

Lemma base_row_spec t : base_row t = map (levenshtein []) (suffixes t).
Proof.
  induction t as [|b t IH]; [reflexivity|].
  cbn [base_row suffixes map]. now rewrite IH.
Qed.

Lemma next_row_spec a s t :
  next_row a t (map (levenshtein s) (suffixes t))
  = map (levenshtein (a :: s)) (suffixes t).
Proof.
  induction t as [|b t IH].
  - cbn. now rewrite levenshtein_nil_r.
  - cbn [suffixes map next_row]. rewrite IH.
    rewrite !hd_map_suffixes, levenshtein_cons. reflexivity.
Qed.

Lemma distance_row_spec s t :
  distance_row s t = map (levenshtein s) (suffixes t).
Proof.
  induction s as [|a s IH]; cbn [distance_row].
  - apply base_row_spec.
  - rewrite IH. apply next_row_spec.
Qed.

Lemma edit_distance_levenshtein s t : edit_distance s t = levenshtein s t.
Proof.
  unfold edit_distance. rewrite distance_row_spec. apply hd_map_suffixes.
Qed.

Lemma levenshtein_refl s : levenshtein s s = 0.
Proof.
  induction s as [|a s IH]; [reflexivity|].
  rewrite levenshtein_cons, IH. unfold substitution_cost, min3.
  rewrite Ascii.eqb_refl. cbn [Nat.add]. lia.
Qed.

Lemma permits_iff budget original candidate :
  permits (EditDistance budget) original candidate = true
  <-> (Z.of_nat (levenshtein (text_chars original) (text_chars candidate))
       <= budget)%Z.
Proof.
  cbn [permits]. rewrite edit_distance_levenshtein. apply Z.leb_le.
Qed.

(** ** The transformation engine *)

Lemma existsb_string_In s seen :
  existsb (String.eqb s) seen = true <-> In s seen.
Proof.
  rewrite existsb_exists. split.
  - intros [x [Hin Heq]]. apply String.eqb_eq in Heq. now subst.
  - intros Hin. exists s. split; [assumption|apply String.eqb_refl].
Qed.

Lemma dedupe_incl seen cs c : In c (dedupe seen cs) -> In c cs.
Proof.
  revert seen. induction cs as [|x cs IH]; intros seen; cbn [dedupe].
  - intros [].
  - destruct (existsb _ seen).
    + intros Hin. right. eauto.
    + intros [->|Hin]; [now left|right; eauto].
Qed.

Lemma dedupe_spec seen cs :
  NoDup (map candidate_string (dedupe seen cs))
  /\ forall s, In s seen -> ~ In s (map candidate_string (dedupe seen cs)).
Proof.
  revert seen. induction cs as [|x cs IH]; intros seen; cbn [dedupe].
  - split; [constructor|intros s _ []].
  - destruct (existsb _ seen) eqn:E.
    + apply IH.
    + destruct (IH (candidate_string x :: seen)) as [Hnd Hout].
      cbn [map]. split.
      * constructor; [apply Hout; now left|assumption].
      * intros s Hs [Heq|Hin].
        -- subst s. apply existsb_string_In in Hs. congruence.
        -- apply (Hout s); [now right|assumption].
Qed.

Lemma dedupe_length seen cs : length (dedupe seen cs) <= length cs.
Proof.
  revert seen. induction cs as [|x cs IH]; intros seen; cbn [dedupe length].
  - lia.
  - destruct (existsb _ seen); cbn [length].
    + specialize (IH seen). lia.
    + specialize (IH (candidate_string x :: seen)). lia.
Qed.

Lemma NoDup_map_inv' {A B} (f : A -> B) l : NoDup (map f l) -> NoDup l.
Proof.
  induction l as [|x l IH]; cbn [map]; intros H; [constructor|].
  inversion H as [|? ? Hnotin Hnd]; subst. constructor; [|auto].
  intros Hin. apply Hnotin. now apply in_map.
Qed.

Section Engine.
Context {ops : Operators}.

Lemma generate_log tr text i w :
  oracle_log (snd (generate tr text i w)) = oracle_log w.
Proof.
  unfold generate. destruct (nth_error text i); [|reflexivity].
  unfold bind, randomly, ret.
  destruct (transformation_words tr w0 (random_state w)). reflexivity.
Qed.

Lemma generate_distinct tr text i w :
  NoDup (map candidate_string (fst (generate tr text i w)))
  /\ ~ In (text_string text) (map candidate_string (fst (generate tr text i w))).
Proof.
  unfold generate. destruct (nth_error text i).
  - unfold bind, randomly, ret.
    destruct (transformation_words tr w0 (random_state w)) as [tagged rs].
    cbn [fst].
    destruct (dedupe_spec [text_string text]
                          (map (candidate_at text i w0) tagged)) as [Hnd Hout].
    split; [assumption|apply Hout; now left].
  - cbn. split; [constructor|intros []].
Qed.

Lemma generate_shape tr text i w c :
  In c (fst (generate tr text i w)) ->
  exists w', candidate_text c = replace_word_at_index text i w'.
Proof.
  unfold generate. destruct (nth_error text i).
  - unfold bind, randomly, ret.
    destruct (transformation_words tr w0 (random_state w)) as [tagged rs].
    cbn [fst]. intros Hin. apply dedupe_incl in Hin.
    apply in_map_iff in Hin. destruct Hin as [[w' op] [<- _]].
    now exists w'.
  - intros [].
Qed.

Lemma generate_length tr text i w wd :
  nth_error text i = Some wd ->
  length (fst (generate tr text i w))
  <= length (fst (transformation_words tr wd (random_state w))).
Proof.
  intros Hnth. unfold generate. rewrite Hnth.
  unfold bind, randomly, ret.
  destruct (transformation_words tr wd (random_state w)) as [tagged rs].
  cbn [fst]. etransitivity; [apply dedupe_length|].
  now rewrite length_map.
Qed.

Lemma generate_none tr text i w :
  nth_error text i = None -> fst (generate tr text i w) = [].
Proof. intros Hnth. unfold generate. now rewrite Hnth. Qed.

(** C7: the candidates the configured transformation yields for a word of a
    text never include one whose full string is that of the input text, and
    no two of them have the same full string; the same holds of the
    candidates as word sequences. *)
Theorem C7_candidates_distinct_and_not_identity :
  forall (model : Model) (use_all_transformations : bool) (text : Text)
         (i : nat) (w : World),
  exists cands w',
    recipe_candidates model use_all_transformations text i w
    = inr (cands, w')
    /\ NoDup (map candidate_string cands)
    /\ ~ In (text_string text) (map candidate_string cands)
    /\ NoDup (map candidate_text cands)
    /\ ~ In text (map candidate_text cands).
Proof.
  intros model b text i w.
  unfold recipe_candidates, cbind. rewrite Gao2018DeepWordBug_eq.
  cbn [attack_transformation]. unfold lift.
  set (tr := if b then all_four else substitution_only).
  destruct (generate_distinct tr text i w) as [Hnd Hout].
  destruct (generate tr text i w) as [cands w'] eqn:E. cbn [fst] in *.
  exists cands, w'. split; [reflexivity|].
  assert (Hmap : map candidate_string cands
                 = map text_string (map candidate_text cands))
    by (rewrite map_map; reflexivity).
  repeat split; try assumption.
  - rewrite Hmap in Hnd. now apply NoDup_map_inv' in Hnd.
  - intros Hin. apply Hout. rewrite Hmap. now apply in_map.
Qed.

End Engine.

(** ** The searcher *)

Lemma most_degrading_In l0 l x : most_degrading l0 l = Some x -> In x l.
Proof.
  revert x. induction l as [|y l IH]; intros x; cbn [most_degrading].
  - discriminate.
  - destruct (most_degrading l0 l) as [z|].
    + destruct (Qle_bool _ _); intros [= <-]; [now left|right; now apply IH].
    + intros [= <-]. now left.
Qed.

Lemma score_all_cons model c cs w :
  score_all model (c :: cs) w =
  let r := score_all model cs
             (mkWorld (oracle_log w ++ [candidate_text c]) (random_state w)) in
  ((c, model (candidate_text c)) :: fst r, snd r).
Proof.
  cbn [score_all]. unfold bind, query, ret.
  destruct (score_all model cs _). reflexivity.
Qed.

Lemma score_all_fst model cs w : map fst (fst (score_all model cs w)) = cs.
Proof.
  revert w. induction cs as [|c cs IH]; intros w; [reflexivity|].
  rewrite score_all_cons. cbn. now rewrite IH.
Qed.

Lemma score_all_log model cs w :
  length (oracle_log (snd (score_all model cs w)))
  = length (oracle_log w) + length cs.
Proof.
  revert w. induction cs as [|c cs IH]; intros w.
  - cbn. lia.
  - rewrite score_all_cons. cbn [snd length]. rewrite IH. cbn [oracle_log].
    rewrite length_app. cbn. lia.
Qed.

Lemma importance_scores_cons model text l0 c0 i rest w :
  importance_scores model text l0 c0 (i :: rest) w =
  let probe := replace_word_at_index text i UNKNOWN in
  let r := importance_scores model text l0 c0 rest
             (mkWorld (oracle_log w ++ [probe]) (random_state w)) in
  ((i, (c0 - conf (model probe) l0)%Q) :: fst r, snd r).
Proof.
  cbn [importance_scores]. unfold bind, query, ret.
  destruct (importance_scores model text l0 c0 rest _). reflexivity.
Qed.

Lemma importance_scores_fst model text l0 c0 positions w :
  map fst (fst (importance_scores model text l0 c0 positions w)) = positions.
Proof.
  revert w. induction positions as [|i rest IH]; intros w; [reflexivity|].
  rewrite importance_scores_cons. cbn. now rewrite IH.
Qed.

Lemma importance_scores_log model text l0 c0 positions w :
  length (oracle_log (snd (importance_scores model text l0 c0 positions w)))
  = length (oracle_log w) + length positions.
Proof.
  revert w. induction positions as [|i rest IH]; intros w.
  - cbn. lia.
  - rewrite importance_scores_cons. cbn [snd length]. rewrite IH.
    cbn [oracle_log]. rewrite length_app. cbn. lia.
Qed.

Lemma insert_ranked_perm x l : Permutation (insert_ranked x l) (x :: l).
Proof.
  induction l as [|y l IH]; cbn [insert_ranked]; [reflexivity|].
  destruct (Qle_bool _ _); [reflexivity|].
  rewrite IH. apply perm_swap.
Qed.

Lemma sort_ranked_perm l : Permutation (sort_ranked l) l.
Proof.
  induction l as [|x l IH]; cbn; [reflexivity|].
  rewrite insert_ranked_perm. now constructor.
Qed.

Lemma rank_spec model text p0 w :
  Permutation (fst (rank model text p0 w)) (seq 0 (length text))
  /\ length (oracle_log (snd (rank model text p0 w)))
     = length (oracle_log w) + length text.
Proof.
  unfold rank, bind, ret.
  pose proof (importance_scores_fst model text (label p0)
                (conf p0 (label p0)) (seq 0 (length text)) w) as Hfst.
  pose proof (importance_scores_log model text (label p0)
                (conf p0 (label p0)) (seq 0 (length text)) w) as Hlog.
  destruct (importance_scores _ _ _ _ _ w) as [scores w'].
  cbn [fst snd] in *. split.
  - rewrite <- Hfst. apply Permutation_map, sort_ranked_perm.
  - now rewrite Hlog, length_seq.
Qed.

Lemma nth_error_replace_other (t : Text) i j w :
  i <> j -> nth_error (replace_word_at_index t i w) j = nth_error t j.
Proof.
  revert i j. induction t as [|x t IH]; intros i j Hij; [reflexivity|].
  destruct i, j; cbn; try reflexivity; try congruence.
  apply IH. congruence.
Qed.

Section Search.
Context {ops : Operators}.

Lemma searching_cons model tr cs original l0 i rest st w :
  searching model tr cs original l0 (i :: rest) st w =
  let g := generate tr (current st) i w in
  let s := score_all model
             (filter (fun c => permits_all cs original (candidate_text c))
                     (fst g)) (snd g) in
  match most_degrading l0 (filter (flips l0) (fst s)) with
  | Some x =>
      (Success (candidate_text (fst x))
               (committed st ++ [candidate_record (fst x)]), snd s)
  | None =>
      match most_degrading l0 (fst s) with
      | Some x =>
          if improves l0 st x
          then searching model tr cs original l0 rest (commit l0 st x) (snd s)
          else searching model tr cs original l0 rest st (snd s)
      | None => searching model tr cs original l0 rest st (snd s)
      end
  end.
Proof.
  cbn [searching]. unfold bind.
  destruct (generate tr (current st) i w) as [cands w1]. cbn [fst snd].
  destruct (score_all model _ w1) as [scored w2]. cbn [fst snd].
  destruct (most_degrading l0 (filter (flips l0) scored)); [reflexivity|].
  destruct (most_degrading l0 scored); [|reflexivity].
  destruct (improves l0 st p); reflexivity.
Qed.

(** Whatever the searcher picks was generated at the current position and
    passed the filter. *)
Lemma picked_candidate model tr cs original i st w x :
  let g := generate tr (current st) i w in
  let s := score_all model
             (filter (fun c => permits_all cs original (candidate_text c))
                     (fst g)) (snd g) in
  In x (fst s) ->
  In (fst x) (fst g)
  /\ permits_all cs original (candidate_text (fst x)) = true.
Proof.
  intros g s Hin. apply (in_map fst) in Hin. unfold s in Hin.
  rewrite score_all_fst in Hin. apply filter_In in Hin. exact Hin.
Qed.

(** *** Oracle queries *)

Lemma searching_queries model tr cs original l0 m :
  (forall wd rs, In wd original ->
     length (fst (transformation_words tr wd rs)) <= m) ->
  forall order st w,
    NoDup order ->
    (forall j, In j order -> nth_error (current st) j = nth_error original j) ->
    length (oracle_log (snd (searching model tr cs original l0 order st w)))
    <= length (oracle_log w) + length order * m.
Proof.
  intros Hm. induction order as [|i rest IH]; intros st w Hnd Hinv.
  - cbn. lia.
  - rewrite searching_cons.
    pose proof (picked_candidate model tr cs original i st w) as Hpick.
    cbn zeta in *.
    set (g := generate tr (current st) i w) in *.
    set (s := score_all model _ (snd g)) in *.
    assert (Hlog : length (oracle_log (snd s)) <= length (oracle_log w) + m).
    { unfold s. rewrite score_all_log. unfold g at 1. rewrite generate_log.
      apply Nat.add_le_mono_l.
      etransitivity; [apply filter_length_le|].
      destruct (nth_error (current st) i) as [wd|] eqn:E.
      - etransitivity; [apply (generate_length _ _ _ _ _ E)|].
        apply Hm. rewrite (Hinv i (or_introl eq_refl)) in E.
        now apply nth_error_In in E.
      - unfold g. rewrite (generate_none _ _ _ _ E). cbn. lia. }
    inversion Hnd as [|? ? Hnotin Hnd']; subst.
    assert (Hrest : forall st', 
      (forall j, In j rest -> nth_error (current st') j = nth_error original j) ->
      length (oracle_log
               (snd (searching model tr cs original l0 rest st' (snd s))))
      <= length (oracle_log w) + length (i :: rest) * m).
    { intros st' Hinv'. etransitivity; [apply IH; assumption|].
      cbn [length]. lia. }
    assert (Hkeep : forall j, In j rest ->
              nth_error (current st) j = nth_error original j)
      by (intros j Hj; apply Hinv; now right).
    destruct (most_degrading l0 (filter (flips l0) (fst s))).
    + cbn [snd length]. lia.
    + destruct (most_degrading l0 (fst s)) as [x|] eqn:Ex; [|now apply Hrest].
      destruct (improves l0 st x); [|now apply Hrest].
      apply Hrest. intros j Hj. cbn [commit current].
      apply most_degrading_In in Ex. destruct (Hpick x Ex) as [Hgen _].
      apply generate_shape in Hgen. destruct Hgen as [w' ->].
      rewrite nth_error_replace_other; [now apply Hkeep|].
      intros ->. contradiction.
Qed.

Lemma attack_one_queries (a : Attack) (text : Text) m w :
  (forall wd rs, In wd text ->
     length (fst (transformation_words (attack_transformation a) wd rs)) <= m) ->
  length (oracle_log (snd (attack_one a text w)))
  <= length (oracle_log w) + 1 + length text + length text * m.
Proof.
  intros Hm. unfold attack_one, bind. unfold query at 1. cbn beta match.
  set (w1 := mkWorld (oracle_log w ++ [text]) (random_state w)).
  set (p0 := attack_model a text).
  destruct (rank_spec (attack_model a) text p0 w1) as [Hperm Hlog].
  destruct (rank (attack_model a) text p0 w1) as [order w2].
  cbn [fst snd] in *.
  etransitivity.
  - apply (searching_queries _ _ _ _ _ m Hm).
    + apply (Permutation_NoDup (Permutation_sym Hperm)), seq_NoDup.
    + reflexivity.
  - rewrite Hlog, (Permutation_length Hperm), length_seq.
    unfold w1. cbn [oracle_log]. rewrite length_app. cbn. lia.
Qed.

(** *** The distance budget under a wiring that attaches the constraint *)

Lemma searching_within_budget model tr cs original l0 budget :
  In (EditDistance budget) cs ->
  forall order st w,
    (Z.of_nat (levenshtein (text_chars original) (text_chars (current st)))
     <= budget)%Z ->
    (Z.of_nat (levenshtein (text_chars original)
                 (text_chars (result_text
                    (fst (searching model tr cs original l0 order st w)))))
     <= budget)%Z.
Proof.
  intros Hc.
  assert (Hpermit : forall t, permits_all cs original t = true ->
            (Z.of_nat (levenshtein (text_chars original) (text_chars t))
             <= budget)%Z).
  { intros t Ht. unfold permits_all in Ht. rewrite forallb_forall in Ht.
    apply permits_iff. now apply Ht. }
  induction order as [|i rest IH]; intros st w Hst.
  - exact Hst.
  - rewrite searching_cons.
    pose proof (picked_candidate model tr cs original i st w) as Hpick.
    cbn zeta in *.
    set (g := generate tr (current st) i w) in *.
    set (s := score_all model _ (snd g)) in *.
    destruct (most_degrading l0 (filter (flips l0) (fst s))) as [y|] eqn:Ey.
    + cbn [fst result_text]. apply Hpermit.
      apply most_degrading_In, filter_In in Ey. now apply Hpick.
    + destruct (most_degrading l0 (fst s)) as [x|] eqn:Ex; [|now apply IH].
      destruct (improves l0 st x); [|now apply IH].
      apply IH. cbn [commit current]. apply Hpermit.
      apply most_degrading_In in Ex. now apply Hpick.
Qed.

Lemma attack_one_within_budget model tr cs depth budget text w :
  In (EditDistance budget) cs ->
  (0 <= budget)%Z ->
  (Z.of_nat (levenshtein (text_chars text)
               (text_chars (result_text
                  (fst (attack_one (mkAttack model tr cs depth) text w)))))
   <= budget)%Z.
Proof.
  intros Hc Hb. unfold attack_one, bind.
  cbn [attack_model attack_transformation attack_constraints].
  unfold query at 1. cbn beta match.
  destruct (rank model text (model text) _) as [order w2].
  apply searching_within_budget; [assumption|].
  cbn [current]. rewrite levenshtein_refl. exact Hb.
Qed.

(** C4: the constraint the recipe defines is the edit-distance constraint with
    budget exactly 30; it accepts a candidate iff the Levenshtein distance
    between the full string of the original text and that of the candidate is
    at most 30; and, being measured against the original text, it keeps the
    result of any run of an attack that carries it within 30 of the original,
    however many changes were committed on the way. *)
Theorem C4_constraint_is_edit_distance_30 :
  forall (model : Model) (use_all_transformations : bool) (w : World),
  exists locals : Locals,
    Gao2018DeepWordBug_body model use_all_transformations w = inr (locals, w)
    /\ constraints locals = [EditDistance 30]
    /\ (forall original candidate : Text,
          permits_all (constraints locals) original candidate = true
          <-> levenshtein (text_chars original) (text_chars candidate) <= 30)
    /\ (forall (tr : Transformation) (text : Text) (w' : World),
          levenshtein (text_chars text)
            (text_chars (result_text (fst (attack_one
               (mkAttack model tr (constraints locals) None) text w'))))
          <= 30).
Proof.
  intros model b w. eexists. split; [apply Gao2018DeepWordBug_body_eq|].
  cbn [constraints]. split; [reflexivity|]. split.
  - intros original candidate. cbn [permits_all forallb].
    rewrite andb_true_r, permits_iff. lia.
  - intros tr text w'.
    pose proof (attack_one_within_budget model tr [EditDistance 30] None 30
                  text w' (or_introl eq_refl)) as H.
    lia.
Qed.

(** C5, amended: for every finite text and the operators the recipe
    configures, one run of the recipe's attack returns a result, and it sends
    the oracle at most 1 + n + n * m texts, where n is the number of words and
    m bounds the candidates per word: one query for the original prediction,
    one per word for the ranking, at most m per word for the candidates. *)
Theorem C5_terminates_with_bounded_queries :
  forall (model : Model) (use_all_transformations : bool) (text : Text)
         (m : nat) (w : World),
    (forall wd rs, In wd text ->
       length (fst (transformation_words
                      (if use_all_transformations then all_four
                       else substitution_only) wd rs)) <= m) ->
    exists r w',
      run_recipe model use_all_transformations text w = inr (r, w')
      /\ length (oracle_log w')
         <= length (oracle_log w) + 1 + length text + length text * m.
Proof.
  intros model b text m w Hm.
  unfold run_recipe, cbind, lift. rewrite Gao2018DeepWordBug_eq.
  set (a := mkAttack model (if b then all_four else substitution_only) [] None).
  pose proof (attack_one_queries a text m w Hm) as Hq.
  destruct (attack_one a text w) as [r w']. cbn [snd] in Hq.
  now exists r, w'.
Qed.

End Search.

(** ** Concrete runs *)

Lemma one_substitution_per_word (wd : Word) (rs : RandomState) :
  length (fst (transformation_words substitution_only wd rs)) <= 1.
Proof.
  unfold substitution_only, transformation_words, replacement_words,
    character_operators, random_substitution, random_letter, draw.
  destruct (list_ascii_of_string wd); cbn; lia.
Qed.

(** The spec's first example: with substitution only and budget 30 the run
    on "The movie was bad" is a success with the one-step trail
    (position 3, "bad", "bar", substitution). *)
Example movie_scenario_success :
  fst (attack_one (mkAttack movie_model substitution_only [EditDistance 30] None)
                  movie_text movie_world)
  = Success ["The"%string; "movie"%string; "was"%string; "bar"%string]
            [mkPerturbation 3 "bad"%string "bar"%string
                            RandomCharacterSubstitution].
Proof. vm_compute. reflexivity. Qed.

(** The spec's second example: with budget 0 every candidate is rejected and
    the run is exhausted with the original text and an empty trail. *)
Example movie_scenario_budget_zero :
  fst (attack_one (mkAttack movie_model substitution_only [EditDistance 0] None)
                  movie_text movie_world)
  = Failure movie_text [].
Proof. vm_compute. reflexivity. Qed.

(** The attack the recipe returns behaves on this scenario as if there were no
    budget at all. *)
Example movie_scenario_recipe :
  exists w',
    run_recipe movie_model false movie_text movie_world
    = inr (Success ["The"%string; "movie"%string; "was"%string; "bar"%string]
                   [mkPerturbation 3 "bad"%string "bar"%string
                            RandomCharacterSubstitution],
           w').
Proof. eexists. vm_compute. reflexivity. Qed.

(** C5, as stated, fails: on the two-word text "a b" with substitution only,
    every word has one candidate, so the stated bound is 2 * 1 queries, and
    the run sends the oracle five texts (the original, two probes of the
    ranking, two candidates). *)
Lemma C5_counterexample :
  ~ terminates_within_words_times_candidates
      (stub_model 16) false short_text 1 fresh_world.
Proof.
  unfold terminates_within_words_times_candidates. intros H.
  destruct H as [r [w' [Hrun Hlen]]].
  - intros wd rs _. apply one_substitution_per_word.
  - vm_compute in Hrun. injection Hrun as <- <-. vm_compute in Hlen. lia.
Qed.

Lemma C5_terminates_with_bounded_queries_witness :
  (forall wd rs, In wd short_text ->
     length (fst (transformation_words substitution_only wd rs)) <= 1)
  /\ exists r w',
       run_recipe (stub_model 16) false short_text fresh_world = inr (r, w')
       /\ length (oracle_log w')
          <= length (oracle_log fresh_world) + 1 + length short_text
             + length short_text * 1.
Proof.
  split.
  - intros wd rs _. apply one_substitution_per_word.
  - apply (@C5_terminates_with_bounded_queries character_operators
             (stub_model 16) false short_text 1 fresh_world).
    intros wd rs _. apply one_substitution_per_word.
Defined.

(** C1 fails on the code: the attack the recipe returns carries no
    constraint. Called with the model only, on sixteen words "ab" and an oracle
    that flips once sixteen words read "ba", its run is a success after
    sixteen committed swaps whose final text is at edit distance 32 from the
    original, a text the constraint the recipe built would reject. *)
Theorem C1_success_beyond_budget :
  exists a w0 r w',
    Gao2018DeepWordBug_call (stub_model 16) None fresh_world = inr (a, w0)
    /\ attack_one a long_text w0 = (r, w')
    /\ is_success r = true
    /\ length (result_trail r) = 16
    /\ levenshtein (text_chars long_text) (text_chars (result_text r)) = 32
    /\ permits (EditDistance 30) long_text (result_text r) = false.
Proof.
  eexists. eexists. eexists. eexists.
  split; [apply Gao2018DeepWordBug_eq|].
  split; [vm_compute; reflexivity|].
  cbn [is_success result_trail result_text]. split; [reflexivity|].
  split; [reflexivity|]. split.
  - rewrite <- edit_distance_levenshtein. vm_compute. reflexivity.
  - vm_compute. reflexivity.
Qed.

(** ** Further properties of the recipe *)

(** X3: the flag changes the transformation and nothing else. The two
    attacks built for one model hold the same model, the same (empty)
    constraint list and the same depth setting, and they are different
    attacks. *)
Theorem X3_flag_changes_only_the_transformation :
  forall (model : Model) (w : World),
  exists a_all a_sub,
    Gao2018DeepWordBug model true w = inr (a_all, w)
    /\ Gao2018DeepWordBug model false w = inr (a_sub, w)
    /\ attack_model a_all = attack_model a_sub
    /\ attack_constraints a_all = attack_constraints a_sub
    /\ attack_max_depth a_all = attack_max_depth a_sub
    /\ attack_transformation a_all <> attack_transformation a_sub
    /\ a_all <> a_sub.
Proof.
  intros model w. eexists. eexists.
  split; [apply Gao2018DeepWordBug_eq|].
  split; [apply Gao2018DeepWordBug_eq|].
  cbn [attack_model attack_constraints attack_max_depth attack_transformation].
  repeat split; try reflexivity.
  - unfold all_four, substitution_only. discriminate.
  - unfold all_four, substitution_only. intros H. discriminate H.
Qed.

(** X4: the four operators of the composite are pairwise different, each of
    the four kinds occurs in it, and the operator used when the flag is false
    is one of them: the substitution-only attack uses a subset of what the
    full attack uses. *)
Theorem X4_operator_sets :
  forall (model : Model) (w : World),
  exists a_all a_sub,
    Gao2018DeepWordBug model true w = inr (a_all, w)
    /\ Gao2018DeepWordBug model false w = inr (a_sub, w)
    /\ NoDup (operators (attack_transformation a_all))
    /\ (forall op : Operator, In op (operators (attack_transformation a_all)))
    /\ incl (operators (attack_transformation a_sub))
            (operators (attack_transformation a_all))
    /\ length (operators (attack_transformation a_all)) = 4
    /\ length (operators (attack_transformation a_sub)) = 1.
Proof.
  intros model w. eexists. eexists.
  split; [apply Gao2018DeepWordBug_eq|].
  split; [apply Gao2018DeepWordBug_eq|].
  cbn [attack_transformation operators all_four substitution_only flat_map app].
  split; [|split; [|split; [|split; reflexivity]]].
  - repeat constructor; cbn; intuition discriminate.
  - intros []; cbn; tauto.
  - intros op [<-|[]]. cbn. tauto.
Qed.
